(** * Car store: the car controller's request handlers

    A shallow embedding of the car controller (the module that imports
    [./car.service] and [./car.validation]): the five handlers
    [createACar], [getAllCars], [getSingleCar], [updateACar] and
    [deleteACar], each a [try { ... } catch (err) { ... }] around one call
    of the data-access layer, ending in [res.status(code).json(body)].

    The data-access layer ([CarService]) and the Zod schema
    ([carValidationSchema]) are collaborators of the controller: they are
    parameters of the development, and every statement quantifies over what
    they return or throw. *)

From Stdlib Require Import ZArith Floats.SpecFloat.
From stdpp Require Import gmap strings list fin_maps pretty.

Set Warnings "-register-all".

(** ** JavaScript values *)

(** The plain data a handler sees: what [JSON.parse] produces for a request
    body, what a document of the store looks like, and what is handed to
    [res.json].  A number is an IEEE-754 double; an object is the finite map
    of its own properties. *)
Inductive JsValue : Type :=
  | JUndefined
  | JNull
  | JBool (b : bool)
  | JNum (x : spec_float)
  | JStr (s : string)
  | JArr (l : list JsValue)
  | JObj (m : gmap string JsValue).

(** An object literal [{ k1: v1, k2: v2, ... }]. *)
Definition obj (props : list (string * JsValue)) : JsValue :=
  JObj (list_to_map props).

(** A document of the store: an object, never [null]. *)
Abbreviation Doc := (gmap string JsValue).

(** [ToBoolean]: [undefined], [null], [false], [+0], [-0], [NaN] and the
    empty string are falsy, everything else is truthy. *)
Definition truthy (v : JsValue) : bool :=
  match v with
  | JUndefined | JNull => false
  | JBool b => b
  | JNum (S754_zero _) | JNum S754_nan => false
  | JNum _ => true
  | JStr s => negb (String.eqb s "")
  | JArr _ | JObj _ => true
  end.

(** [a || b] *)
Definition js_or (a b : JsValue) : JsValue := if truthy a then a else b.

(** ** Thrown values *)

(** The fields of an [Error] instance that the handlers read. *)
Record JsError : Type := {
  err_name : string;
  err_message : string;
  err_stack : option string
}.

(** One element of a Zod issue path: a property name or an array index. *)
Inductive PathKey : Type :=
  | Key (s : string)
  | Index (n : N).

(** An element of [ZodError.errors]; the handlers read [path] and
    [message] only. *)
Record ZodIssue : Type := {
  issue_path : list PathKey;
  issue_message : string
}.

(** What a [catch (err: unknown)] clause can receive.  [z.ZodError] extends
    [Error]; a [NonError] is a thrown value that is not an [Error] instance
    (JavaScript lets any value be thrown), here a plain datum. *)
Inductive Thrown : Type :=
  | ZodError (e : JsError) (errors : list ZodIssue)
  | Error (e : JsError)
  | NonError (v : JsValue).

(** [err instanceof z.ZodError] *)
Definition instanceof_ZodError (err : Thrown) : bool :=
  match err with ZodError _ _ => true | _ => false end.

(** [err instanceof Error], with the narrowed value. *)
Definition as_Error (err : Thrown) : option JsError :=
  match err with
  | ZodError e _ | Error e => Some e
  | NonError _ => None
  end.

Definition instanceof_Error (err : Thrown) : bool :=
  match as_Error err with Some _ => true | None => false end.

(** [err.stack], a string or [undefined]. *)
Definition stack_of (e : JsError) : JsValue :=
  match err_stack e with
  | Some s => JStr s
  | None => JUndefined
  end.

(** The [TypeError] the runtime raises; its stack is never output by a
    handler. *)
Definition TypeError (msg : string) : Thrown :=
  Error {| err_name := "TypeError"; err_message := msg; err_stack := None |}.

(** ** Results of a computation that may throw *)

Inductive Outcome (A : Type) : Type :=
  | Return (a : A)
  | Throw (err : Thrown).
Arguments Return {A} a.
Arguments Throw {A} err.

(** [Object.keys(v)]: throws on [undefined] and [null]; the indices of an
    array or string; nothing for a number or boolean. *)
Definition Object_keys (v : JsValue) : Outcome (list string) :=
  match v with
  | JUndefined | JNull =>
      Throw (TypeError "Cannot convert undefined or null to object")
  | JBool _ | JNum _ => Return []
  | JStr s => Return (pretty <$> seq 0 (String.length s))
  | JArr l => Return (pretty <$> seq 0 (length l))
  | JObj m => Return (map_to_list m).*1
  end.

(** [v.k] for a property name [k] that no built-in prototype defines (the
    handlers read [price], [quantity] and [message]): the own property of an
    object, [undefined] on any other value, a [TypeError] on [undefined] and
    [null]. *)
Definition get_member (v : JsValue) (k : string) : Outcome JsValue :=
  match v with
  | JUndefined =>
      Throw (TypeError ("Cannot read properties of undefined (reading '" +:+ k +:+ "')"))
  | JNull =>
      Throw (TypeError ("Cannot read properties of null (reading '" +:+ k +:+ "')"))
  | JObj m => Return (default JUndefined (m !! k))
  | _ => Return JUndefined
  end.

(** [acc[k] = v] on an object that started as the literal [{}]: an own
    property is created or overwritten, except under the key [__proto__],
    which the setter inherited from [Object.prototype] takes: the
    assignment then changes the prototype and creates no own property, so
    nothing appears under that key when the object is sent. *)
Definition assign_property (acc : gmap string JsValue) (k : string) (v : JsValue) :
    gmap string JsValue :=
  if decide (k = "__proto__") then acc else <[k := v]> acc.

(** [path.join('.')] *)
Definition PathKey_toString (k : PathKey) : string :=
  match k with
  | Key s => s
  | Index n => pretty n
  end.

Definition join_path (path : list PathKey) : string :=
  String.concat "." (PathKey_toString <$> path).

(** ** Requests and responses *)

Record Request : Type := {
  req_body : JsValue;            (* req.body *)
  req_params_carId : string;     (* req.params.carId *)
  req_query_searchTerm : JsValue (* req.query.searchTerm *)
}.

(** [res.status(code).json(body)] *)
Record Response : Type := {
  res_status : Z;
  res_json : JsValue
}.

(** A field of the response body. *)
Definition body_field (r : Response) (k : string) : option JsValue :=
  match res_json r with
  | JObj m => m !! k
  | _ => None
  end.

(** ** Asynchronous computations over the store *)

(** An [async] function: it reads and writes the store (the [World]) and
    resolves to a value or rejects with the thrown value. *)
Definition Async (World A : Type) : Type := World → Outcome A * World.

Definition ret {World A} (a : A) : Async World A := λ w, (Return a, w).

Definition bind {World A B} (c : Async World A) (k : A → Async World B) : Async World B :=
  λ w, match c w with
       | (Return a, w') => k a w'
       | (Throw err, w') => (Throw err, w')
       end.

(** A synchronous step that may throw. *)
Definition lift {World A} (o : Outcome A) : Async World A := λ w, (o, w).

(** [try { c } catch (err) { h err }] *)
Definition try_catch {World A} (c : Async World A) (h : Thrown → Async World A) : Async World A :=
  λ w, match c w with
       | (Return a, w') => (Return a, w')
       | (Throw err, w') => h err w'
       end.

Notation "x <- c1 ;; c2" := (bind c1 (λ x, c2))
  (at level 100, c1 at next level, right associativity).

Definition respond {World} (code : Z) (body : JsValue) : Async World Response :=
  ret {| res_status := code; res_json := body |}.

(** The interface of [CarService] (car.service.ts), as the controller calls
    it. *)
Record CarServiceT (World : Type) : Type := {
  createCarIntoDB : JsValue → Async World Doc;
  getAllCarsFromDB : JsValue → Async World (list Doc);
  getSingleCarFromDB : string → Async World (option Doc);
  updateACarIntoDB : string → JsValue → Async World (option Doc);
  deleteACarFromDB : string → Async World (option Doc)
}.
Arguments createCarIntoDB {World} _ _ _.
Arguments getAllCarsFromDB {World} _ _ _.
Arguments getSingleCarFromDB {World} _ _ _.
Arguments updateACarIntoDB {World} _ _ _ _.
Arguments deleteACarFromDB {World} _ _ _.

(** ** The controller *)

Section CarController.

Context {World : Type}.

(** [carValidationSchema.parse] (car.validation.ts): the parsed car, or a
    throw (a [ZodError] when the body violates the schema). *)
Variable carValidationSchema_parse : JsValue → Outcome JsValue.

Variable CarService : CarServiceT World.

(** The entry [createACar] stores under an issue's path. *)
Definition ValidationErrorDetail (error : ZodIssue) : JsValue :=
  obj [("message", JStr (issue_message error));
       ("name", JStr "ValidatorError");
       ("properties",
        obj [("message", JStr (issue_message error));
             ("path", JStr (join_path (issue_path error)))])].

(** [err.errors.reduce((acc, error) => { acc[key] = ...; return acc }, {})] *)
Definition errorDetails (errors : list ZodIssue) : gmap string JsValue :=
  foldl (λ acc error,
           assign_property acc (join_path (issue_path error)) (ValidationErrorDetail error))
        ∅ errors.

(** [err.errors.map((error) => ({ path: ..., errorMessage: ... }))] *)
Definition errorMsg (errors : list ZodIssue) : list JsValue :=
  (λ error, obj [("path", JStr (join_path (issue_path error)));
                 ("errorMessage", JStr (issue_message error))]) <$> errors.

Definition createACar (req : Request) : Async World Response :=
  try_catch
    (zodParsedCarData <- lift (carValidationSchema_parse (req_body req)) ;;
     result <- createCarIntoDB CarService zodParsedCarData ;;
     respond 200
       (obj [("message", JStr "Car created successfully");
             ("success", JBool true);
             ("data", JObj result)]))
    (λ err,
       match err with
       | ZodError e errors =>
           respond 400
             (obj [("message", JStr "Validation failed");
                   ("success", JBool false);
                   ("error",
                    obj [("name", JStr "ValidationError");
                         ("errors", JObj (errorDetails errors))]);
                   ("stack", js_or (stack_of e) JNull)])
       | _ =>
           respond 500
             (obj [("message", JStr "Car could not be created!");
                   ("success", JBool false);
                   ("error",
                    obj [("name",
                          match as_Error err with
                          | Some e => JStr (err_name e)
                          | None => JStr "UnknownError"
                          end);
                         ("message",
                          match as_Error err with
                          | Some e => JStr (err_message e)
                          | None => JStr "An unknown error occurred"
                          end)]);
                   ("stack",
                    match as_Error err with
                    | Some e => stack_of e
                    | None => JNull
                    end)])
       end).

Definition getAllCars (req : Request) : Async World Response :=
  try_catch
    (let searchTerm := req_query_searchTerm req in
     result <- getAllCarsFromDB CarService searchTerm ;;
     if Nat.ltb 0 (length result) then
       respond 200
         (obj [("message", JStr "Cars retrieved successfully");
               ("status", JBool true);
               ("data", JArr (JObj <$> result))])
     else
       respond 404
         (obj [("success", JBool false);
               ("message", JStr "No cars found.");
               ("data", JNull)]))
    (λ err,
       match as_Error err with
       | Some e =>
           respond 500
             (obj [("message", JStr "An error occurred while fetching cars");
                   ("success", JBool false);
                   ("error",
                    obj [("name", JStr (err_name e));
                         ("message", JStr (err_message e));
                         ("stack", stack_of e)])])
       | None =>
           respond 500
             (obj [("message", JStr "An unexpected error occurred");
                   ("success", JBool false);
                   ("error",
                    obj [("name", JStr "UnknownError");
                         ("message", JStr "An unknown error occurred");
                         ("stack", JStr "No stack trace available")])])
       end).

Definition getSingleCar (req : Request) : Async World Response :=
  try_catch
    (let carId := req_params_carId req in
     result <- getSingleCarFromDB CarService carId ;;
     match result with
     | Some car =>
         respond 200
           (obj [("message", JStr "Car retrieved successfully");
                 ("status", JBool true);
                 ("data", JObj car)])
     | None =>
         respond 404
           (obj [("success", JBool false);
                 ("message", JStr "No cars found.");
                 ("data", JNull)])
     end)
    (λ err,
       match as_Error err with
       | Some _ =>
           respond 404
             (obj [("success", JBool false);
                   ("message", JStr "Car not found")])
       | None =>
           respond 500
             (obj [("message", JStr "An unexpected error occurred");
                   ("success", JBool false);
                   ("error",
                    obj [("name", JStr "UnknownError");
                         ("message", JStr "An unknown error occurred");
                         ("stack", JStr "No stack trace available")])])
       end).

Definition updateACar (req : Request) : Async World Response :=
  try_catch
    (let carId := req_params_carId req in
     let updateData := req_body req in
     keys <- lift (Object_keys updateData) ;;
     if Nat.eqb (length keys) 0 then
       respond 400
         (obj [("success", JBool false);
               ("message", JStr "At least one field must be provided for update")])
     else
       price <- lift (get_member updateData "price") ;;
       if negb (truthy price) then
         respond 400
           (obj [("success", JBool false);
                 ("message", JStr "Price and quantity must be provided")])
       else
         quantity <- lift (get_member updateData "quantity") ;;
         if negb (truthy quantity) then
           respond 400
             (obj [("success", JBool false);
                   ("message", JStr "Price and quantity must be provided")])
         else
           result <- updateACarIntoDB CarService carId updateData ;;
           match result with
           | None =>
               respond 404
                 (obj [("success", JBool false);
                       ("message", JStr "Car not found")])
           | Some car =>
               respond 200
                 (obj [("message", JStr "Car updated successfully");
                       ("status", JBool true);
                       ("data", JObj car)])
           end)
    (λ err,
       match err with
       | ZodError _ errors =>
           respond 400
             (obj [("success", JBool false);
                   ("message", JStr "Validation error");
                   ("errors", JArr (errorMsg errors))])
       | Error _ =>
           respond 404
             (obj [("success", JBool false);
                   ("message", JStr "Car not found")])
       | NonError v =>
           message <- lift (get_member v "message") ;;
           respond 500
             (obj [("success", JBool false);
                   ("message", JStr "An error occurred while updating the car");
                   ("error", js_or message (JStr "Unknown error"))])
       end).

Definition deleteACar (req : Request) : Async World Response :=
  try_catch
    (let carId := req_params_carId req in
     _ <- deleteACarFromDB CarService carId ;;
     respond 200
       (obj [("message", JStr "Car deleted successfully");
             ("status", JBool true);
             ("data", obj [])]))
    (λ err,
       match err with
       | ZodError _ errors =>
           respond 400
             (obj [("success", JBool false);
                   ("message", JStr "Validation error");
                   ("errors", JArr (errorMsg errors))])
       | Error _ =>
           respond 404
             (obj [("success", JBool false);
                   ("message", JStr "Car not found")])
       | NonError v =>
           message <- lift (get_member v "message") ;;
           respond 500
             (obj [("success", JBool false);
                   ("message", JStr "An error occurred while deleting the car");
                   ("error", js_or message (JStr "Unknown error"))])
       end).

(** The exported [CarController] object, by handler name. *)
Inductive HandlerName : Type :=
  | createACar_ | getAllCars_ | getSingleCar_ | updateACar_ | deleteACar_.

Definition CarController (h : HandlerName) : Request → Async World Response :=
  match h with
  | createACar_ => createACar
  | getAllCars_ => getAllCars
  | getSingleCar_ => getSingleCar
  | updateACar_ => updateACar
  | deleteACar_ => deleteACar
  end.

End CarController.

(** ** A scripted data-access layer

    A [CarService] over a one-state world that answers every call with a
    fixed outcome; it supplies the concrete runs of the examples below. *)
Definition ScriptedService
    (create : Outcome Doc) (all : Outcome (list Doc))
    (single update delete : Outcome (option Doc)) : CarServiceT unit :=
  {| createCarIntoDB := λ _, lift create;
     getAllCarsFromDB := λ _, lift all;
     getSingleCarFromDB := λ _, lift single;
     updateACarIntoDB := λ _ _, lift update;
     deleteACarFromDB := λ _, lift delete |}.

(** A service on which every call succeeds with the given list / record. *)
Definition QuietService (cars : list Doc) (car : option Doc) : CarServiceT unit :=
  ScriptedService (Return (default ∅ car)) (Return cars) (Return car) (Return car) (Return car).

(** A service on which every call throws [err]. *)
Definition FailingService (err : Thrown) : CarServiceT unit :=
  ScriptedService (Throw err) (Throw err) (Throw err) (Throw err) (Throw err).

(** A parser that accepts every body unchanged, and one that rejects every
    body with the given issues. *)
Definition parse_accept : JsValue → Outcome JsValue := Return.

Definition parse_reject (errors : list ZodIssue) : JsValue → Outcome JsValue :=
  λ _, Throw (ZodError {| err_name := "ZodError";
                          err_message := "invalid car";
                          err_stack := Some "ZodError: invalid car" |} errors).

(** The [ZodError] thrown by [parse_reject]. *)
Definition parse_reject_error (errors : list ZodIssue) : Thrown :=
  ZodError {| err_name := "ZodError";
              err_message := "invalid car";
              err_stack := Some "ZodError: invalid car" |} errors.

(** Sample data. *)
Definition number (n : positive) : JsValue := JNum (S754_finite false n 0).

Definition zero : JsValue := JNum (S754_zero false).

Definition corolla : Doc :=
  list_to_map [("brand", JStr "Toyota"); ("model", JStr "Corolla");
               ("year", number 2020); ("price", number 20000);
               ("quantity", number 5); ("category", JStr "Sedan")].

(** The scenario of a body with an empty [brand] and a negative [price]:
    two issues, one per field. *)
Definition brand_and_price_issues : list ZodIssue :=
  [{| issue_path := [Key "brand"]; issue_message := "Brand is required" |};
   {| issue_path := [Key "price"]; issue_message := "Price must be a positive number" |}].

Definition request (body : JsValue) (carId : string) : Request :=
  {| req_body := body; req_params_carId := carId; req_query_searchTerm := JUndefined |}.

(** ** Configuration

    The default export of the configuration module, as a function of
    [process.env] once [dotenv.config] has run. *)

(** [process.env.K]: a string, or [undefined] when the variable is unset. *)
Definition process_env (env : gmap string string) (k : string) : JsValue :=
  match env !! k with
  | Some s => JStr s
  | None => JUndefined
  end.

Record Config : Type := {
  port : JsValue;
  database_url : JsValue;
  bcrypt_salt_round : JsValue
}.

Definition config (env : gmap string string) : Config :=
  {| port := js_or (process_env env "PORT") (number 5000);
     database_url := process_env env "DATABASE_URL";
     bcrypt_salt_round := process_env env "BCRYPT_SALT_ROUNDS" |}.

(** * Properties *)

Ltac run_handler :=
  unfold createACar, getAllCars, getSingleCar, updateACar, deleteACar,
    try_catch, bind, lift, respond, ret; simpl.

(** ** List *)

Section List.

Context {World : Type} (svc : CarServiceT World).

(** C4. List: a non-empty result of the data-access call is answered 200
    with the whole list as [data]; an empty result is answered 404 with the
    message "No cars found." (and [data: null]), so never 200 with an empty
    list. *)
Theorem getAllCars_list_or_404 (req : Request) (w w' : World) (result : list Doc) :
  getAllCarsFromDB svc (req_query_searchTerm req) w = (Return result, w') →
  getAllCars svc req w =
    (Return
       match result with
       | [] =>
           {| res_status := 404;
              res_json := obj [("success", JBool false);
                               ("message", JStr "No cars found.");
                               ("data", JNull)] |}
       | _ :: _ =>
           {| res_status := 200;
              res_json := obj [("message", JStr "Cars retrieved successfully");
                               ("status", JBool true);
                               ("data", JArr (JObj <$> result))] |}
       end, w').
Proof.
  intros Hcall. run_handler. rewrite Hcall.
  destruct result as [|car cars]; reflexivity.
Qed.

End List.

Lemma getAllCars_list_or_404_witness :
  getAllCars (QuietService [corolla] None) (request (obj []) "") () =
    (Return {| res_status := 200;
               res_json := obj [("message", JStr "Cars retrieved successfully");
                                ("status", JBool true);
                                ("data", JArr [JObj corolla])] |}, ())
  ∧ getAllCars (QuietService [] None) (request (obj []) "") () =
    (Return {| res_status := 404;
               res_json := obj [("success", JBool false);
                                ("message", JStr "No cars found.");
                                ("data", JNull)] |}, ()).
Proof.
  split.
  - exact (getAllCars_list_or_404 (QuietService [corolla] None) (request (obj []) "") () () [corolla] eq_refl).
  - exact (getAllCars_list_or_404 (QuietService [] None) (request (obj []) "") () () [] eq_refl).
Defined.

(** ** Get-by-id *)

Section GetById.

Context {World : Type} (svc : CarServiceT World).

(** C2, as the code has it. Get-by-id: a [null] result of the lookup is
    answered 404, and so is every thrown [Error] instance (a [ZodError]
    included); a thrown value that is not an [Error] instance is answered
    500. *)
Theorem getSingleCar_null_or_Error_404 (req : Request) (w w' : World)
    (out : Outcome (option Doc)) :
  getSingleCarFromDB svc (req_params_carId req) w = (out, w') →
  ∃ r, getSingleCar svc req w = (Return r, w')
    ∧ (out = Return None → res_status r = 404%Z)
    ∧ (∀ err, out = Throw err →
         res_status r = if instanceof_Error err then 404%Z else 500%Z).
Proof.
  intros Hcall. run_handler. rewrite Hcall.
  destruct out as [[car|]|err]; [| |destruct err as [e errors|e|v]];
    (eexists; split; [reflexivity|]); split; intros; simplify_eq; reflexivity.
Qed.

(** The 200 answer of Get-by-id. *)
Lemma getSingleCar_found (req : Request) (w w' : World) (car : Doc) :
  getSingleCarFromDB svc (req_params_carId req) w = (Return (Some car), w') →
  getSingleCar svc req w =
    (Return {| res_status := 200;
               res_json := obj [("message", JStr "Car retrieved successfully");
                                ("status", JBool true);
                                ("data", JObj car)] |}, w').
Proof. intros Hcall. run_handler. by rewrite Hcall. Qed.

End GetById.

Lemma getSingleCar_null_or_Error_404_witness :
  ∃ r, getSingleCar (FailingService (TypeError "bad id")) (request (obj []) "42") () = (Return r, ())
    ∧ res_status r = 404%Z.
Proof.
  destruct (getSingleCar_null_or_Error_404 (FailingService (TypeError "bad id"))
              (request (obj []) "42") () () (Throw (TypeError "bad id")) eq_refl)
    as (r & Hrun & _ & Herr).
  exists r. split; [exact Hrun|]. exact (Herr _ eq_refl).
Defined.

(** C2 as stated fails: a lookup that throws a value which is not an
    [Error] instance (here the string "boom") is answered 500, not 404. *)
Lemma getSingleCar_thrown_value_not_404 :
  ¬ (∀ (svc : CarServiceT ()) (req : Request) (w w' w'' : ()) (err : Thrown) (r : Response),
       getSingleCarFromDB svc (req_params_carId req) w = (Throw err, w') →
       getSingleCar svc req w = (Return r, w'') →
       res_status r = 404%Z).
Proof.
  intros Hclaim.
  specialize (Hclaim (FailingService (NonError (JStr "boom"))) (request (obj []) "42")
                () () () (NonError (JStr "boom")) _ eq_refl eq_refl).
  discriminate Hclaim.
Qed.

(** ** Update *)

Section Update.

Context {World : Type} (svc : CarServiceT World).

(** A non-empty object has at least one key. *)
Lemma Object_keys_nonempty (m : gmap string JsValue) :
  m ≠ ∅ → Nat.eqb (length (map_to_list m).*1) 0 = false.
Proof.
  intros Hne. apply Nat.eqb_neq. intros Hlen.
  apply Hne, map_to_list_empty_iff.
  apply nil_length_inv in Hlen. by apply fmap_nil_inv in Hlen.
Qed.

(** The gate of [updateACar] on a non-empty payload: the request reaches
    the data-access layer only if [price] and [quantity] are both truthy;
    otherwise it is rejected with 400. *)
Lemma updateACar_price_quantity_gate (req : Request) (w : World)
    (m : gmap string JsValue) :
  req_body req = JObj m → m ≠ ∅ →
  truthy (default JUndefined (m !! "price"))
    && truthy (default JUndefined (m !! "quantity")) = false →
  updateACar svc req w =
    (Return {| res_status := 400;
               res_json := obj [("success", JBool false);
                                ("message", JStr "Price and quantity must be provided")] |}, w).
Proof.
  intros Hbody Hne Hgate. run_handler. rewrite Hbody. simpl.
  rewrite (Object_keys_nonempty m Hne).
  destruct (truthy (default JUndefined (m !! "price"))); simpl in *; [|done].
  by rewrite Hgate.
Qed.

(** C7. Update, past the payload checks (a payload whose [price] and
    [quantity] are truthy, hence non-empty): a [null] result of the partial
    update is answered 404, any record is answered 200 with that record as
    [data]. *)
Theorem updateACar_null_404_else_200 (req : Request) (w w' : World)
    (m : gmap string JsValue) (result : option Doc) :
  req_body req = JObj m →
  truthy (default JUndefined (m !! "price")) = true →
  truthy (default JUndefined (m !! "quantity")) = true →
  updateACarIntoDB svc (req_params_carId req) (JObj m) w = (Return result, w') →
  updateACar svc req w =
    (Return
       match result with
       | None =>
           {| res_status := 404;
              res_json := obj [("success", JBool false);
                               ("message", JStr "Car not found")] |}
       | Some car =>
           {| res_status := 200;
              res_json := obj [("message", JStr "Car updated successfully");
                               ("status", JBool true);
                               ("data", JObj car)] |}
       end, w').
Proof.
  intros Hbody Hprice Hquantity Hcall.
  assert (Hne : m ≠ ∅) by (by intros ->).
  run_handler. rewrite Hbody. simpl.
  rewrite (Object_keys_nonempty m Hne), Hprice, Hquantity. simpl.
  rewrite Hcall. by destruct result.
Qed.

(** C3, on the code. A payload that contains both [price] and [quantity],
    with [quantity: 0], is rejected with the 400 "Price and quantity must be
    provided" answer and never reaches the data-access layer: the check
    tests the truthiness of the two fields, not their presence. *)
Theorem updateACar_rejects_quantity_zero (carId : string) (w : World) :
  let updateData : gmap string JsValue :=
    list_to_map [("price", number 20000); ("quantity", zero)] in
  updateData ≠ ∅
  ∧ is_Some (updateData !! "price") ∧ is_Some (updateData !! "quantity")
  ∧ updateACar svc (request (JObj updateData) carId) w =
      (Return {| res_status := 400;
                 res_json := obj [("success", JBool false);
                                  ("message", JStr "Price and quantity must be provided")] |}, w).
Proof.
  intros updateData.
  assert (Hne : updateData ≠ ∅).
  { intros Hempty. by apply (f_equal (λ m : gmap string JsValue, m !! "price")) in Hempty. }
  split; [exact Hne|]. split; [by eexists|]. split; [by eexists|].
  by apply (updateACar_price_quantity_gate _ _ updateData).
Qed.

(** The same for [price: 0]. *)
Example updateACar_rejects_price_zero (carId : string) (w : World) :
  updateACar svc (request (obj [("price", zero); ("quantity", number 5)]) carId) w =
    (Return {| res_status := 400;
               res_json := obj [("success", JBool false);
                                ("message", JStr "Price and quantity must be provided")] |}, w).
Proof.
  apply (updateACar_price_quantity_gate _ _ (list_to_map [("price", zero); ("quantity", number 5)]));
    [done| |done].
  intros Hempty. by apply (f_equal (λ m : gmap string JsValue, m !! "price")) in Hempty.
Qed.

(** An empty payload is rejected before the price/quantity check. *)
Example updateACar_rejects_empty (carId : string) (w : World) :
  updateACar svc (request (obj []) carId) w =
    (Return {| res_status := 400;
               res_json := obj [("success", JBool false);
                                ("message", JStr "At least one field must be provided for update")] |}, w).
Proof. reflexivity. Qed.

End Update.

Lemma updateACar_null_404_else_200_witness :
  updateACar (QuietService [] None) (request (JObj corolla) "42") () =
    (Return {| res_status := 404;
               res_json := obj [("success", JBool false);
                                ("message", JStr "Car not found")] |}, ())
  ∧ updateACar (QuietService [] (Some corolla)) (request (JObj corolla) "42") () =
    (Return {| res_status := 200;
               res_json := obj [("message", JStr "Car updated successfully");
                                ("status", JBool true);
                                ("data", JObj corolla)] |}, ()).
Proof.
  split.
  - exact (updateACar_null_404_else_200 (QuietService [] None) (request (JObj corolla) "42")
             () () corolla None eq_refl eq_refl eq_refl eq_refl).
  - exact (updateACar_null_404_else_200 (QuietService [] (Some corolla))
             (request (JObj corolla) "42")
             () () corolla (Some corolla) eq_refl eq_refl eq_refl eq_refl).
Defined.

(** ** Delete *)

Section Delete.

Context {World : Type} (svc : CarServiceT World).

(** C8. Delete: whenever the data-access delete call returns, whatever it
    returns (the removed record, or [null] when there was none), the answer
    is 200 with the empty object as [data]. *)
Theorem deleteACar_returns_200_empty_data (req : Request) (w w' : World)
    (result : option Doc) :
  deleteACarFromDB svc (req_params_carId req) w = (Return result, w') →
  ∃ r, deleteACar svc req w = (Return r, w')
    ∧ res_status r = 200%Z
    ∧ body_field r "data" = Some (JObj ∅)
    ∧ res_json r = obj [("message", JStr "Car deleted successfully");
                        ("status", JBool true);
                        ("data", obj [])].
Proof.
  intros Hcall. run_handler. rewrite Hcall.
  eexists; split; [reflexivity|]. by repeat split.
Qed.

(** C9, as the code has it. Delete, when the data-access call throws: a
    [ZodError] is answered 400, any other [Error] instance 404, and a thrown
    value that is not an [Error] instance (and is neither [undefined] nor
    [null]) 500; an answer on this path has no other status. *)
Theorem deleteACar_throw_400_404_500 (req : Request) (w w' : World) (err : Thrown) :
  deleteACarFromDB svc (req_params_carId req) w = (Throw err, w') →
  (∀ r w'', deleteACar svc req w = (Return r, w'') →
     res_status r = 400%Z ∨ res_status r = 404%Z ∨ res_status r = 500%Z)
  ∧ match err with
    | ZodError _ _ =>
        ∃ r, deleteACar svc req w = (Return r, w') ∧ res_status r = 400%Z
    | Error _ =>
        ∃ r, deleteACar svc req w = (Return r, w') ∧ res_status r = 404%Z
    | NonError v =>
        v ≠ JUndefined → v ≠ JNull →
        ∃ r, deleteACar svc req w = (Return r, w') ∧ res_status r = 500%Z
    end.
Proof.
  intros Hcall. run_handler. rewrite Hcall. split.
  - intros r w''. destruct err as [e errors|e|v]; [| |destruct v]; simpl;
      intros Hrun; simplify_eq; simpl; auto.
  - destruct err as [e errors|e|v]; [by eexists|by eexists|].
    intros Hundefined Hnull. destruct v; try done; by eexists.
Qed.

(** A thrown [null]: the 500 branch reads [err.message] and fails itself, so
    the handler rejects without an answer. *)
Example deleteACar_thrown_null (req : Request) (w w' : World) :
  deleteACarFromDB svc (req_params_carId req) w = (Throw (NonError JNull), w') →
  deleteACar svc req w =
    (Throw (TypeError "Cannot read properties of null (reading 'message')"), w').
Proof. intros Hcall. run_handler. by rewrite Hcall. Qed.

End Delete.

Lemma deleteACar_returns_200_empty_data_witness :
  ∃ r, deleteACar (QuietService [] None) (request (obj []) "42") () = (Return r, ())
    ∧ res_status r = 200%Z ∧ body_field r "data" = Some (JObj ∅).
Proof.
  destruct (deleteACar_returns_200_empty_data (QuietService [] None) (request (obj []) "42")
              () () None eq_refl) as (r & Hrun & Hstatus & Hdata & _).
  by exists r.
Defined.

Lemma deleteACar_throw_400_404_500_witness :
  ∃ r, deleteACar (FailingService (TypeError "bad id")) (request (obj []) "42") () = (Return r, ())
    ∧ res_status r = 404%Z.
Proof.
  exact (proj2 (deleteACar_throw_400_404_500 (FailingService (TypeError "bad id"))
                  (request (obj []) "42") () () (TypeError "bad id") eq_refl)).
Defined.

(** C9 as stated fails: a delete call that throws a [ZodError] is answered
    400, which is neither 404 nor 500. *)
Lemma deleteACar_ZodError_is_400 :
  ¬ (∀ (svc : CarServiceT ()) (req : Request) (w w' w'' : ()) (err : Thrown) (r : Response),
       deleteACarFromDB svc (req_params_carId req) w = (Throw err, w') →
       deleteACar svc req w = (Return r, w'') →
       res_status r = 404%Z ∨ res_status r = 500%Z).
Proof.
  intros Hclaim.
  pose (err := ZodError {| err_name := "ZodError"; err_message := "invalid id";
                           err_stack := None |}
                        [{| issue_path := [Key "carId"]; issue_message := "Invalid id" |}]).
  destruct (Hclaim (FailingService err) (request (obj []) "42") () () () err _ eq_refl eq_refl)
    as [H|H]; discriminate H.
Qed.

(** ** Create *)

(** [errorDetails] after one more issue: one more assignment. *)
Lemma errorDetails_snoc (errors : list ZodIssue) (error : ZodIssue) :
  errorDetails (errors ++ [error]) =
    assign_property (errorDetails errors) (join_path (issue_path error))
      (ValidationErrorDetail error).
Proof. unfold errorDetails. by rewrite foldl_snoc. Qed.

(** No entry is ever stored under [__proto__]. *)
Lemma errorDetails_lookup_proto (errors : list ZodIssue) :
  errorDetails errors !! "__proto__" = None.
Proof.
  induction errors as [|error errors IH] using rev_ind; [done|].
  rewrite errorDetails_snoc. unfold assign_property. case_decide as Hkey; [done|].
  by rewrite lookup_insert_ne.
Qed.

(** The entry under any other key is the detail of the last issue with that
    path. *)
Lemma errorDetails_lookup_last (errors : list ZodIssue) (k : string) :
  k ≠ "__proto__" →
  errorDetails errors !! k =
    ValidationErrorDetail <$> last (filter (λ error, join_path (issue_path error) = k) errors).
Proof.
  intros Hk. induction errors as [|error errors IH] using rev_ind; [done|].
  rewrite errorDetails_snoc, filter_app, filter_cons, filter_nil.
  unfold assign_property. case_decide as Hproto.
  - rewrite decide_False by congruence. by rewrite app_nil_r.
  - rewrite lookup_insert. case_decide as Hkey.
    + by rewrite last_snoc.
    + by rewrite app_nil_r.
Qed.

(** No issue on a path, no match of the filter. *)
Lemma filter_path_nil (errors : list ZodIssue) (k : string) :
  (∀ error, error ∈ errors → join_path (issue_path error) ≠ k) →
  filter (λ error, join_path (issue_path error) = k) errors = [].
Proof.
  induction errors as [|error errors IH]; intros Hnone; [done|].
  rewrite filter_cons_False by (apply Hnone; left).
  apply IH. intros error' Hin. apply Hnone. by right.
Qed.


(** There are at most as many entries as issues. *)
Lemma errorDetails_size (errors : list ZodIssue) :
  size (errorDetails errors) ≤ length errors.
Proof.
  induction errors as [|error errors IH] using rev_ind; [done|].
  rewrite errorDetails_snoc, length_app. simpl.
  unfold assign_property. case_decide; [lia|].
  destruct (errorDetails errors !! join_path (issue_path error)) eqn:Hlook.
  - rewrite map_size_insert_Some by done. lia.
  - rewrite map_size_insert_None by done. lia.
Qed.

Section Create.

Context {World : Type}.
Variable parse : JsValue → Outcome JsValue.
Variable svc : CarServiceT World.


(** C6, as the code has it. Create: a throw of the parser or of the
    data-access call that is not a [ZodError] is answered 500 with [success: false] and an [error]
    object of a [name] and a [message]: those of the thrown [Error]
    instance, or the fixed "UnknownError" / "An unknown error occurred" for
    a thrown value that is not an [Error] instance. *)
Theorem createACar_unexpected_error (req : Request) (w w' : World) (err : Thrown) :
  (parse (req_body req) = Throw err ∧ w' = w)
  ∨ (∃ car, parse (req_body req) = Return car
       ∧ createCarIntoDB svc car w = (Throw err, w')) →
  instanceof_ZodError err = false →
  ∃ r name message,
    createACar parse svc req w = (Return r, w')
    ∧ res_status r = 500%Z
    ∧ body_field r "success" = Some (JBool false)
    ∧ body_field r "error" = Some (obj [("name", JStr name); ("message", JStr message)])
    ∧ (∀ e, as_Error err = Some e → name = err_name e ∧ message = err_message e)
    ∧ (as_Error err = None →
         name = "UnknownError" ∧ message = "An unknown error occurred").
Proof.
  intros Hthrow Hzod. run_handler.
  destruct Hthrow as [[Hparse ->]|(car & Hparse & Hcall)]; rewrite Hparse; simpl.
  - destruct err as [e errors|e|v]; [done|..]; simpl;
      eexists _, _, _; (split; [reflexivity|]); do 3 (split; [reflexivity|]);
      split; intros; by simplify_eq.
  - rewrite Hcall.
    destruct err as [e errors|e|v]; [done|..]; simpl;
      eexists _, _, _; (split; [reflexivity|]); do 3 (split; [reflexivity|]);
      split; intros; by simplify_eq.
Qed.

(** X14. Create: when the parser accepts the body and the data-access call,
    given the parsed value, returns the created record, the answer is 200
    with [success: true] and that record as [data]. *)
Lemma createACar_created (req : Request) (w w' : World) (car : JsValue) (result : Doc) :
  parse (req_body req) = Return car →
  createCarIntoDB svc car w = (Return result, w') →
  createACar parse svc req w =
    (Return {| res_status := 200;
               res_json := obj [("message", JStr "Car created successfully");
                                ("success", JBool true);
                                ("data", JObj result)] |}, w').
Proof. intros Hparse Hcall. run_handler. by rewrite Hparse, Hcall. Qed.

End Create.


Lemma createACar_unexpected_error_witness :
  ∃ r, createACar parse_accept
         (FailingService (Error {| err_name := "MongoServerError";
                                   err_message := "connection lost";
                                   err_stack := None |}))
         (request (JObj corolla) "") () = (Return r, ())
    ∧ res_status r = 500%Z
    ∧ body_field r "error" =
        Some (obj [("name", JStr "MongoServerError"); ("message", JStr "connection lost")]).
Proof.
  destruct (createACar_unexpected_error parse_accept
              (FailingService (Error {| err_name := "MongoServerError";
                                        err_message := "connection lost";
                                        err_stack := None |}))
              (request (JObj corolla) "") () ()
              (Error {| err_name := "MongoServerError";
                        err_message := "connection lost";
                        err_stack := None |}))
    as (r & name & message & Hrun & Hstatus & _ & Herror & Hown & _).
  - right. exists (JObj corolla). by split.
  - reflexivity.
  - exists r. do 2 (split; [assumption|]).
    destruct (Hown _ eq_refl) as [-> ->]. exact Herror.
Defined.


(** C6 as stated fails: when the data-access call throws a value that is
    not an [Error] instance, here the plain object
    [{name: "MongoServerError", message: "connection lost"}], the 500
    answer does not carry its name and message but the fixed
    "UnknownError" / "An unknown error occurred". *)
Lemma createACar_thrown_object_not_carried :
  ¬ (∀ (parse : JsValue → Outcome JsValue) (svc : CarServiceT ()) (req : Request)
       (w w' : ()) (err : Thrown) (r : Response) (name message : JsValue),
       (∃ car, parse (req_body req) = Return car
          ∧ createCarIntoDB svc car w = (Throw err, w')) →
       instanceof_ZodError err = false →
       match err with
       | ZodError e _ | Error e =>
           name = JStr (err_name e) ∧ message = JStr (err_message e)
       | NonError v =>
           get_member v "name" = Return name ∧ get_member v "message" = Return message
       end →
       createACar parse svc req w = (Return r, w') →
       res_status r = 500%Z
       ∧ body_field r "error" = Some (obj [("name", name); ("message", message)])).
Proof.
  intros Hclaim.
  pose (thrown := obj [("name", JStr "MongoServerError"); ("message", JStr "connection lost")]).
  destruct (Hclaim parse_accept (FailingService (NonError thrown)) (request (JObj corolla) "")
              () () (NonError thrown) _ (JStr "MongoServerError") (JStr "connection lost")
              (ex_intro _ (JObj corolla) (conj eq_refl eq_refl)) eq_refl
              (conj eq_refl eq_refl) eq_refl)
    as [_ Herror].
  apply (f_equal (λ o, match o with
                       | Some (JObj m) => m !! "name"
                       | _ => None
                       end)) in Herror.
  vm_compute in Herror. discriminate Herror.
Qed.

(** ** The envelope *)

(** Case analysis on everything a handler branches on. *)
Ltac handler_cases :=
  run_handler; repeat (case_match; simpl in *); simplify_eq.

Section Envelope.

Context {World : Type}.
Variable parse : JsValue → Outcome JsValue.
Variable svc : CarServiceT World.

(** C10. Every answer of a handler with status 400, 404 or 500 has
    [success: false] in its body. *)
Theorem CarController_error_success_false (h : HandlerName) (req : Request)
    (w w' : World) (r : Response) :
  CarController parse svc h req w = (Return r, w') →
  res_status r = 400%Z ∨ res_status r = 404%Z ∨ res_status r = 500%Z →
  body_field r "success" = Some (JBool false).
Proof.
  intros Hrun Hstatus. revert Hrun.
  destruct h; simpl; handler_cases; intros Hrun; simplify_eq; try reflexivity;
    destruct Hstatus as [Hs|[Hs|Hs]]; discriminate Hs.
Qed.

(** C1, on the code. The 200 answers of [getAllCars], [getSingleCar],
    [updateACar] and [deleteACar] have no [success] field: their body
    carries [status: true] instead. *)
Theorem CarController_200_body_lacks_success (h : HandlerName) (req : Request)
    (w w' : World) (r : Response) :
  h ≠ createACar_ →
  CarController parse svc h req w = (Return r, w') →
  res_status r = 200%Z →
  body_field r "success" = None ∧ body_field r "status" = Some (JBool true).
Proof.
  intros Hh Hrun Hstatus. revert Hrun.
  destruct h; [done|..]; simpl; handler_cases; intros Hrun; simplify_eq;
    try discriminate Hstatus; by split.
Qed.

(** The sibling path: the 200 answer of [createACar] has [success: true]. *)
Lemma createACar_200_body_has_success (req : Request) (w w' : World) (r : Response) :
  createACar parse svc req w = (Return r, w') →
  res_status r = 200%Z →
  body_field r "success" = Some (JBool true).
Proof.
  intros Hrun Hstatus. revert Hrun.
  handler_cases; intros Hrun; simplify_eq; try discriminate Hstatus; reflexivity.
Qed.

(** X15. A handler answers with 200, 400, 404 or 500 only. *)
Lemma CarController_status (h : HandlerName) (req : Request) (w w' : World) (r : Response) :
  CarController parse svc h req w = (Return r, w') →
  res_status r ∈ [200%Z; 400%Z; 404%Z; 500%Z].
Proof.
  revert w'. destruct h; simpl; handler_cases; intros w' Hrun; simplify_eq; simpl;
    set_solver.
Qed.

End Envelope.

Lemma CarController_error_success_false_witness :
  ∃ r, CarController parse_accept (QuietService [] None) getAllCars_ (request (obj []) "") () =
         (Return r, ())
    ∧ res_status r = 404%Z ∧ body_field r "success" = Some (JBool false).
Proof.
  eexists. split; [reflexivity|]. split; [reflexivity|].
  apply (CarController_error_success_false parse_accept (QuietService [] None) getAllCars_
           (request (obj []) "") () ()); [reflexivity|].
  right; left; reflexivity.
Defined.

Lemma CarController_200_body_lacks_success_witness :
  ∃ r, CarController parse_accept (QuietService [corolla] None) getAllCars_ (request (obj []) "") () =
         (Return r, ())
    ∧ res_status r = 200%Z
    ∧ body_field r "success" = None ∧ body_field r "status" = Some (JBool true).
Proof.
  eexists. split; [reflexivity|]. split; [reflexivity|].
  apply (CarController_200_body_lacks_success parse_accept (QuietService [corolla] None)
           getAllCars_ (request (obj []) "") () ()); [discriminate|reflexivity|reflexivity].
Defined.

(** * Further properties of the handlers *)

(** ** Which handlers always answer *)

Section Answers.

Context {World : Type}.
Variable parse : JsValue → Outcome JsValue.
Variable svc : CarServiceT World.

(** X1. List: whatever the data-access call throws, the answer is 500 with
    [success: false] (a [ZodError] included, never 404); the [error] object
    holds the name, message and stack of a thrown [Error] instance, and
    fixed placeholders for any other thrown value. *)
Theorem getAllCars_throw_500 (req : Request) (w w' : World) (err : Thrown) :
  getAllCarsFromDB svc (req_query_searchTerm req) w = (Throw err, w') →
  ∃ r, getAllCars svc req w = (Return r, w')
    ∧ res_status r = 500%Z
    ∧ body_field r "success" = Some (JBool false)
    ∧ body_field r "error" =
        Some match as_Error err with
             | Some e => obj [("name", JStr (err_name e));
                              ("message", JStr (err_message e));
                              ("stack", stack_of e)]
             | None => obj [("name", JStr "UnknownError");
                            ("message", JStr "An unknown error occurred");
                            ("stack", JStr "No stack trace available")]
             end.
Proof.
  intros Hcall. run_handler. rewrite Hcall.
  destruct err as [e errors|e|v]; simpl; eexists; by repeat split.
Qed.

(** X2. [createACar], [getAllCars] and [getSingleCar] never reject: on
    every request and every behaviour of the parser and the data-access
    layer they send an answer. *)
Theorem CarController_always_answers (h : HandlerName) (req : Request) (w : World) :
  h = createACar_ ∨ h = getAllCars_ ∨ h = getSingleCar_ →
  ∃ r w', CarController parse svc h req w = (Return r, w').
Proof.
  intros [-> | [-> | ->]]; simpl; run_handler; repeat (case_match; simpl in * ); by eexists _, _.
Qed.

(** X3. [deleteACar] sends no answer exactly when the data-access call
    throws [null] or [undefined]: its catch clause then fails on
    [err.message] and the handler rejects. *)
Theorem deleteACar_rejects_iff (req : Request) (w : World) :
  (∃ err w', deleteACar svc req w = (Throw err, w'))
  ↔ (∃ w', deleteACarFromDB svc (req_params_carId req) w = (Throw (NonError JNull), w')
         ∨ deleteACarFromDB svc (req_params_carId req) w = (Throw (NonError JUndefined), w')).
Proof.
  run_handler. split.
  - intros (err & w' & Hrun).
    destruct (deleteACarFromDB svc (req_params_carId req) w) as [[result|[e errors|e|v]] w0];
      simpl in Hrun; try discriminate Hrun.
    exists w0. destruct v; simpl in Hrun; try discriminate Hrun; auto.
  - intros (w' & [Hcall|Hcall]); rewrite Hcall; simpl; by eexists _, _.
Qed.

(** X4. [updateACar] sends no answer exactly when the payload passes the
    checks and the data-access call throws [null] or [undefined]. *)
Theorem updateACar_rejects_iff (req : Request) (w : World) :
  (∃ err w', updateACar svc req w = (Throw err, w'))
  ↔ (∃ m w', req_body req = JObj m
       ∧ truthy (default JUndefined (m !! "price")) = true
       ∧ truthy (default JUndefined (m !! "quantity")) = true
       ∧ (updateACarIntoDB svc (req_params_carId req) (JObj m) w = (Throw (NonError JNull), w')
          ∨ updateACarIntoDB svc (req_params_carId req) (JObj m) w
              = (Throw (NonError JUndefined), w'))).
Proof.
  run_handler. split.
  - intros (err & w' & Hrun).
    destruct (req_body req) as [| |b|x|s|l|m] eqn:Hbody; simpl in Hrun;
      try discriminate Hrun;
      try (destruct (Nat.eqb _ 0); discriminate Hrun).
    destruct (Nat.eqb _ 0); [discriminate Hrun|].
    destruct (truthy (default JUndefined (m !! "price"))) eqn:Hprice;
      simpl in Hrun; [|discriminate Hrun].
    destruct (truthy (default JUndefined (m !! "quantity"))) eqn:Hquantity;
      simpl in Hrun; [|discriminate Hrun].
    destruct (updateACarIntoDB svc (req_params_carId req) (JObj m) w)
      as [[[car|]|[e errors|e|v]] w0] eqn:Hcall; simpl in Hrun; try discriminate Hrun.
    exists m, w0. do 3 (split; [done|]).
    destruct v; simpl in Hrun; try discriminate Hrun; auto.
  - intros (m & w' & Hbody & Hprice & Hquantity & Hcall).
    assert (Hne : m ≠ ∅) by (by intros ->).
    rewrite Hbody. simpl. rewrite (Object_keys_nonempty m Hne), Hprice, Hquantity. simpl.
    destruct Hcall as [Hcall|Hcall]; rewrite Hcall; simpl; by eexists _, _.
Qed.

End Answers.

Lemma getAllCars_throw_500_witness :
  ∃ r, getAllCars (FailingService (parse_reject_error [])) (request (obj []) "") () = (Return r, ())
    ∧ res_status r = 500%Z
    ∧ body_field r "error" =
        Some (obj [("name", JStr "ZodError"); ("message", JStr "invalid car");
                   ("stack", JStr "ZodError: invalid car")]).
Proof.
  destruct (getAllCars_throw_500 (FailingService (parse_reject_error []))
              (request (obj []) "") () () (parse_reject_error []) eq_refl)
    as (r & Hrun & Hstatus & _ & Herror).
  by exists r.
Defined.

Lemma CarController_always_answers_witness :
  ∃ r w', CarController parse_accept (FailingService (NonError JNull)) getSingleCar_
            (request (obj []) "42") () = (Return r, w').
Proof.
  apply (CarController_always_answers parse_accept (FailingService (NonError JNull))
           getSingleCar_ (request (obj []) "42") ()).
  right; right; reflexivity.
Defined.

(** ** Update: what is rejected before the data-access call *)

(** X5. [updateACar] answers a request whose body is not an object with
    truthy [price] and [quantity] without calling the data-access layer: the
    answer is the same for every service and the store is untouched; it is
    404 for a body that is [undefined] or [null] (the [TypeError] of
    [Object.keys] is caught as "not found") and 400 otherwise. *)
Theorem updateACar_rejected_without_data_access (req : Request) :
  ¬ (∃ m, req_body req = JObj m
        ∧ truthy (default JUndefined (m !! "price")) = true
        ∧ truthy (default JUndefined (m !! "quantity")) = true) →
  ∃ r, (∀ (World : Type) (svc : CarServiceT World) (w : World),
          updateACar svc req w = (Return r, w))
    ∧ res_status r =
        match req_body req with
        | JUndefined | JNull => 404%Z
        | _ => 400%Z
        end
    ∧ body_field r "success" = Some (JBool false).
Proof.
  intros Hpass. unfold updateACar, try_catch, bind, lift, respond, ret.
  destruct (req_body req) as [| |b|x|s|l|m] eqn:Hbody; simpl;
    try (eexists; split; [intros; reflexivity|]; by split).
  - destruct (Nat.eqb _ 0); eexists; (split; [intros; reflexivity|]); by split.
  - destruct (Nat.eqb _ 0); eexists; (split; [intros; reflexivity|]); by split.
  - destruct (Nat.eqb _ 0); [eexists; (split; [intros; reflexivity|]); by split|].
    destruct (truthy (default JUndefined (m !! "price"))) eqn:Hprice; simpl;
      [|eexists; (split; [intros; reflexivity|]); by split].
    destruct (truthy (default JUndefined (m !! "quantity"))) eqn:Hquantity; simpl;
      [|eexists; (split; [intros; reflexivity|]); by split].
    destruct Hpass. by exists m.
Qed.

Lemma updateACar_rejected_without_data_access_witness :
  ∃ r, (∀ (World : Type) (svc : CarServiceT World) (w : World),
          updateACar svc (request JUndefined "42") w = (Return r, w))
    ∧ res_status r = 404%Z.
Proof.
  destruct (updateACar_rejected_without_data_access (request JUndefined "42"))
    as (r & Hrun & Hstatus & _).
  - intros (m & Hbody & _). discriminate Hbody.
  - by exists r.
Defined.

Section UpdateDeleteCatch.

Context {World : Type} (svc : CarServiceT World).

(** X6. Update, when the data-access call throws after the payload checks:
    an [Error] instance gets the very answer of a missing record (404 "Car
    not found"); a [ZodError] gets 400 with an [errors] array of one
    [{path, errorMessage}] per issue, in the order of the issues. *)
Theorem updateACar_throw_Error (req : Request) (w w' : World)
    (m : gmap string JsValue) (err : Thrown) (e : JsError) :
  req_body req = JObj m →
  truthy (default JUndefined (m !! "price")) = true →
  truthy (default JUndefined (m !! "quantity")) = true →
  updateACarIntoDB svc (req_params_carId req) (JObj m) w = (Throw err, w') →
  as_Error err = Some e →
  ∃ r, updateACar svc req w = (Return r, w')
    ∧ match err with
      | ZodError _ errors =>
          res_status r = 400%Z
          ∧ ∃ shown, body_field r "errors" = Some (JArr shown)
              ∧ length shown = length errors
              ∧ ∀ i issue, errors !! i = Some issue →
                  shown !! i = Some (obj [("path", JStr (join_path (issue_path issue)));
                                          ("errorMessage", JStr (issue_message issue))])
      | _ =>
          r = {| res_status := 404;
                 res_json := obj [("success", JBool false);
                                  ("message", JStr "Car not found")] |}
      end.
Proof.
  intros Hbody Hprice Hquantity Hcall Herr.
  assert (Hne : m ≠ ∅) by (by intros ->).
  run_handler. rewrite Hbody. simpl.
  rewrite (Object_keys_nonempty m Hne), Hprice, Hquantity. simpl. rewrite Hcall.
  destruct err as [e' errors|e'|v]; [| |done]; simpl.
  - eexists; split; [reflexivity|]. split; [reflexivity|].
    exists (errorMsg errors). split; [reflexivity|]. unfold errorMsg. split.
    + by rewrite length_fmap.
    + intros i issue Hi. by rewrite list_lookup_fmap, Hi.
  - by eexists.
Qed.

(** X7. Delete, when the data-access call throws a value that is not an
    [Error] instance (nor [null] or [undefined]): the 500 answer's [error]
    field is the [message] property of a thrown object when that is truthy,
    and the text "Unknown error" in every other case; a thrown string is
    not reported. *)
Theorem deleteACar_500_error_field (req : Request) (w w' : World) (v : JsValue) :
  deleteACarFromDB svc (req_params_carId req) w = (Throw (NonError v), w') →
  v ≠ JUndefined → v ≠ JNull →
  ∃ r, deleteACar svc req w = (Return r, w')
    ∧ res_status r = 500%Z
    ∧ body_field r "error" =
        Some match v with
             | JObj m =>
                 match m !! "message" with
                 | Some message => if truthy message then message else JStr "Unknown error"
                 | None => JStr "Unknown error"
                 end
             | _ => JStr "Unknown error"
             end.
Proof.
  intros Hcall Hundefined Hnull. run_handler. rewrite Hcall.
  destruct v as [| |b|x|s|l|m]; try done; simpl;
    try (eexists; by repeat split).
  eexists; split; [reflexivity|]. split; [reflexivity|].
  unfold js_or. by destruct (m !! "message") as [message|].
Qed.

End UpdateDeleteCatch.

Lemma updateACar_throw_Error_witness :
  updateACar (FailingService (TypeError "bad id")) (request (JObj corolla) "42") () =
    (Return {| res_status := 404;
               res_json := obj [("success", JBool false);
                                ("message", JStr "Car not found")] |}, ()).
Proof.
  destruct (updateACar_throw_Error (FailingService (TypeError "bad id"))
              (request (JObj corolla) "42") () () corolla (TypeError "bad id")
              _ eq_refl eq_refl eq_refl eq_refl eq_refl) as (r & Hrun & ->).
  exact Hrun.
Defined.

Lemma deleteACar_500_error_field_witness :
  ∃ r, deleteACar (FailingService (NonError (JStr "boom"))) (request (obj []) "42") () =
         (Return r, ())
    ∧ res_status r = 500%Z
    ∧ body_field r "error" = Some (JStr "Unknown error").
Proof.
  apply (deleteACar_500_error_field (FailingService (NonError (JStr "boom")))
           (request (obj []) "42") () () (JStr "boom")); [reflexivity|discriminate|discriminate].
Defined.

(** ** Create: the [errors] object *)

(** X8. The keys of [errorDetails] are exactly the joined paths of the
    issues other than [__proto__]: every such path has an entry, no entry
    lacks an issue, and nothing is ever stored under [__proto__]; so there
    are at most as many entries as issues. *)
Theorem errorDetails_dom (errors : list ZodIssue) :
  (∀ k, is_Some (errorDetails errors !! k)
        ↔ k ≠ "__proto__" ∧ ∃ issue, issue ∈ errors ∧ join_path (issue_path issue) = k)
  ∧ size (errorDetails errors) ≤ length errors.
Proof.
  split; [|apply errorDetails_size].
  intros k. destruct (decide (k = "__proto__")) as [->|Hk].
  - rewrite errorDetails_lookup_proto. split; [by intros [? ?]|by intros [? _]].
  - rewrite errorDetails_lookup_last by done. split.
    + intros [detail Hlook]. split; [done|].
      destruct (last _) as [issue|] eqn:Hlast; [|done].
      apply last_Some_elem_of, list_elem_of_filter in Hlast as [Hkey Hin]. by exists issue.
    + intros (_ & issue & Hin & Hkey).
      destruct (last _) as [shown|] eqn:Hlast; [by eexists|].
      apply last_None in Hlast.
      assert (Hsame : issue ∈ filter (λ error, join_path (issue_path error) = k) errors)
        by (by apply list_elem_of_filter).
      rewrite Hlast in Hsame. by apply not_elem_of_nil in Hsame.
Qed.

(** X9. The entry of a path (other than [__proto__]) is that of the last
    issue on it: an issue that no later issue shares its path with is shown
    with its own message, whatever came before. *)
Theorem errorDetails_last_issue_wins (before after : list ZodIssue) (issue : ZodIssue) :
  join_path (issue_path issue) ≠ "__proto__" →
  (∀ later, later ∈ after →
     join_path (issue_path later) ≠ join_path (issue_path issue)) →
  errorDetails (before ++ issue :: after) !! join_path (issue_path issue) =
    Some (ValidationErrorDetail issue).
Proof.
  intros Hproto Hafter. rewrite errorDetails_lookup_last by done.
  rewrite filter_app, filter_cons_True by done.
  rewrite (filter_path_nil after _ Hafter). by rewrite last_snoc.
Qed.

(** X10. When the issues have pairwise distinct paths, none of them
    [__proto__], every issue is shown with its own message and there are as
    many entries as issues. *)
Theorem errorDetails_distinct_paths (errors : list ZodIssue) :
  NoDup (join_path ∘ issue_path <$> errors) →
  (∀ issue, issue ∈ errors → join_path (issue_path issue) ≠ "__proto__") →
  size (errorDetails errors) = length errors
  ∧ ∀ issue, issue ∈ errors →
      errorDetails errors !! join_path (issue_path issue) = Some (ValidationErrorDetail issue).
Proof.
  induction errors as [|error errors IH] using rev_ind; intros Hnodup Hproto.
  - split; [done|]. intros issue Hin. by apply not_elem_of_nil in Hin.
  - rewrite fmap_app in Hnodup. apply NoDup_app in Hnodup as (Hnodup & Hfresh & _).
    destruct IH as [IHsize IHlook]; [done|intros issue Hin; apply Hproto, elem_of_app; by left|].
    assert (Hkey : join_path (issue_path error) ≠ "__proto__").
    { apply Hproto, elem_of_app. right. by left. }
    assert (Hnone : errorDetails errors !! join_path (issue_path error) = None).
    { rewrite errorDetails_lookup_last by done. rewrite filter_path_nil; [done|].
      intros issue Hin Hsame. apply (Hfresh (join_path (issue_path issue))).
      - apply list_elem_of_fmap. by exists issue.
      - rewrite Hsame. simpl. left. }
    rewrite errorDetails_snoc, length_app. unfold assign_property.
    rewrite decide_False by done. simpl. split.
    + rewrite map_size_insert_None by done. lia.
    + intros issue [Hin| ->%list_elem_of_singleton]%elem_of_app.
      * rewrite lookup_insert_ne; [by apply IHlook|].
        intros Hsame. rewrite Hsame, IHlook in Hnone by done. discriminate Hnone.
      * by rewrite lookup_insert_eq.
Qed.

Lemma errorDetails_last_issue_wins_witness :
  errorDetails [{| issue_path := [Key "price"]; issue_message := "Expected number" |};
                {| issue_path := [Key "price"]; issue_message := "Price must be positive" |};
                {| issue_path := [Key "brand"]; issue_message := "Brand is required" |}]
    !! "price" =
  Some (ValidationErrorDetail
          {| issue_path := [Key "price"]; issue_message := "Price must be positive" |}).
Proof.
  apply (errorDetails_last_issue_wins
           [{| issue_path := [Key "price"]; issue_message := "Expected number" |}]
           [{| issue_path := [Key "brand"]; issue_message := "Brand is required" |}]
           {| issue_path := [Key "price"]; issue_message := "Price must be positive" |}).
  - discriminate.
  - intros later ->%list_elem_of_singleton. discriminate.
Defined.

Lemma errorDetails_distinct_paths_witness :
  size (errorDetails brand_and_price_issues) = 2
  ∧ ∀ issue, issue ∈ brand_and_price_issues →
      errorDetails brand_and_price_issues !! join_path (issue_path issue) =
        Some (ValidationErrorDetail issue).
Proof.
  apply (errorDetails_distinct_paths brand_and_price_issues).
  - apply NoDup_cons. split; [|apply NoDup_singleton].
    intros Hin%list_elem_of_singleton. discriminate Hin.
  - intros issue [->|[->|Hin]%elem_of_cons]%elem_of_cons; [discriminate|discriminate|].
    by apply not_elem_of_nil in Hin.
Defined.

(** The slip at [__proto__]: an issue on that path leaves no entry, and the
    [errors] object stays empty when it is the only issue. *)
Example errorDetails_proto_only :
  errorDetails [{| issue_path := [Key "__proto__"]; issue_message := "Unrecognized key" |}] = ∅.
Proof. reflexivity. Qed.

(** ** Create: what the answer shows *)

(** X11. A body that the parser rejects is never stored: whatever is
    thrown, [createACar] answers 400 or 500 without calling the data-access
    layer, with the same answer for every service and the store untouched. *)
Theorem createACar_invalid_body_never_stored
    (parse : JsValue → Outcome JsValue) (req : Request) (err : Thrown) :
  parse (req_body req) = Throw err →
  ∃ r, (∀ (World : Type) (svc : CarServiceT World) (w : World),
          createACar parse svc req w = (Return r, w))
    ∧ res_status r = if instanceof_ZodError err then 400%Z else 500%Z.
Proof.
  intros Hparse. unfold createACar, try_catch, bind, lift, respond, ret. rewrite Hparse.
  destruct err as [e errors|e|v]; eexists; (split; [intros; reflexivity|]); reflexivity.
Qed.

Lemma createACar_invalid_body_never_stored_witness :
  ∃ r, (∀ (World : Type) (svc : CarServiceT World) (w : World),
          createACar (parse_reject brand_and_price_issues) svc (request (obj []) "") w =
            (Return r, w))
    ∧ res_status r = 400%Z.
Proof.
  exact (createACar_invalid_body_never_stored (parse_reject brand_and_price_issues)
           (request (obj []) "") (parse_reject_error brand_and_price_issues) eq_refl).
Defined.

Section CreateAnswer.

Context {World : Type}.
Variable parse : JsValue → Outcome JsValue.
Variable svc : CarServiceT World.

(** X12. Every answer of [createACar] has a boolean [success], which is
    [true] exactly when the status is 200. *)
Theorem createACar_success_flag (req : Request) (w w' : World) (r : Response) :
  createACar parse svc req w = (Return r, w') →
  body_field r "success" = Some (JBool (bool_decide (res_status r = 200%Z))).
Proof.
  revert w'. handler_cases; intros w' Hrun; simplify_eq; reflexivity.
Qed.

(** X13. [createACar] hands the stack trace of a thrown [Error] instance to
    the client: when the parser or the data-access call throws an [Error]
    (a [ZodError] included) with a non-empty stack, the body's [stack] field
    is that stack. *)
Theorem createACar_exposes_stack (req : Request) (w w' : World) (err : Thrown)
    (e : JsError) (s : string) :
  (parse (req_body req) = Throw err ∧ w' = w)
  ∨ (∃ car, parse (req_body req) = Return car
       ∧ createCarIntoDB svc car w = (Throw err, w')) →
  as_Error err = Some e → err_stack e = Some s → s ≠ "" →
  ∃ r, createACar parse svc req w = (Return r, w')
    ∧ body_field r "stack" = Some (JStr s).
Proof.
  intros Hthrow Herr Hstack Hs. run_handler.
  assert (Htruthy : negb (String.eqb s "") = true).
  { apply negb_true_iff, String.eqb_neq, Hs. }
  destruct Hthrow as [[Hparse ->]|(car & Hparse & Hcall)]; rewrite Hparse; simpl;
    [|rewrite Hcall];
    destruct err as [e' errors|e'|v]; simpl in Herr; simplify_eq; simpl;
    (eexists; split; [reflexivity|]);
    unfold body_field, stack_of, js_or; simpl; rewrite Hstack; simpl;
    rewrite ?Htruthy; reflexivity.
Qed.

End CreateAnswer.

Lemma createACar_success_flag_witness :
  ∃ r, createACar parse_accept (QuietService [] (Some corolla)) (request (JObj corolla) "") () =
         (Return r, ())
    ∧ res_status r = 200%Z ∧ body_field r "success" = Some (JBool true).
Proof.
  eexists. split; [reflexivity|]. split; [reflexivity|].
  exact (createACar_success_flag parse_accept (QuietService [] (Some corolla))
           (request (JObj corolla) "") () () _ eq_refl).
Defined.

Lemma createACar_exposes_stack_witness :
  ∃ r, createACar (parse_reject brand_and_price_issues) (QuietService [] None)
         (request (obj []) "") () = (Return r, ())
    ∧ body_field r "stack" = Some (JStr "ZodError: invalid car").
Proof.
  apply (createACar_exposes_stack (parse_reject brand_and_price_issues) (QuietService [] None)
           (request (obj []) "") () () (parse_reject_error brand_and_price_issues)
           {| err_name := "ZodError"; err_message := "invalid car";
              err_stack := Some "ZodError: invalid car" |}).
  - left. by split.
  - reflexivity.
  - reflexivity.
  - discriminate.
Defined.

Lemma createACar_created_witness :
  createACar parse_accept (QuietService [] (Some corolla)) (request (JObj corolla) "") () =
    (Return {| res_status := 200;
               res_json := obj [("message", JStr "Car created successfully");
                                ("success", JBool true);
                                ("data", JObj corolla)] |}, ()).
Proof.
  exact (createACar_created parse_accept (QuietService [] (Some corolla))
           (request (JObj corolla) "") () () (JObj corolla) corolla eq_refl eq_refl).
Defined.

Lemma CarController_status_witness :
  ∃ r, CarController parse_accept (FailingService (TypeError "bad id")) updateACar_
         (request JNull "42") () = (Return r, ())
    ∧ res_status r ∈ [200%Z; 400%Z; 404%Z; 500%Z].
Proof.
  eexists. split; [reflexivity|].
  exact (CarController_status parse_accept (FailingService (TypeError "bad id")) updateACar_
           (request JNull "42") () () _ eq_refl).
Defined.

(** ** Get-by-id: the 200 answer *)

Section GetByIdFound.

Context {World : Type} (svc : CarServiceT World).

(** X16. Get-by-id answers 200 exactly when the lookup returned a record,
    and the [data] of that answer is the record. *)
Theorem getSingleCar_200_iff_found (req : Request) (w w' : World)
    (out : Outcome (option Doc)) (r : Response) :
  getSingleCarFromDB svc (req_params_carId req) w = (out, w') →
  getSingleCar svc req w = (Return r, w') →
  (res_status r = 200%Z ↔ ∃ car, out = Return (Some car))
  ∧ ∀ car, out = Return (Some car) → body_field r "data" = Some (JObj car).
Proof.
  intros Hcall. run_handler. rewrite Hcall.
  destruct out as [[car|]|[e errors|e|v]]; simpl; intros Hrun; simplify_eq; simpl;
    (split; [split; [try discriminate; by eexists|intros (car' & Hout); by simplify_eq]|]);
    intros car' Hout; by simplify_eq.
Qed.

End GetByIdFound.

Lemma getSingleCar_200_iff_found_witness :
  ∃ r, getSingleCar (QuietService [] (Some corolla)) (request (obj []) "42") () = (Return r, ())
    ∧ res_status r = 200%Z ∧ body_field r "data" = Some (JObj corolla).
Proof.
  eexists. split; [reflexivity|].
  destruct (getSingleCar_200_iff_found (QuietService [] (Some corolla)) (request (obj []) "42")
              () () (Return (Some corolla)) _ eq_refl eq_refl) as [Hstatus Hdata].
  split; [apply Hstatus; by eexists|by apply Hdata].
Defined.

(** ** Configuration *)

(** X17. The configured port is never empty: it is the [PORT] variable, as
    the string it is, when that is set and non-empty (the string "0"
    included), and the number 5000 when [PORT] is unset or empty. *)
Theorem config_port (env : gmap string string) :
  truthy (port (config env)) = true
  ∧ (∀ s, port (config env) = JStr s ↔ env !! "PORT" = Some s ∧ s ≠ "")
  ∧ (port (config env) = number 5000 ↔ env !! "PORT" = None ∨ env !! "PORT" = Some "").
Proof.
  unfold config, process_env, js_or. simpl.
  destruct (env !! "PORT") as [p|] eqn:Hport; simpl.
  - destruct (String.eqb p "") eqn:Hp; simpl.
    + apply String.eqb_eq in Hp as ->. split; [done|]. split.
      * intros s. split; [discriminate|]. intros [? ?]. by simplify_eq.
      * split; auto.
    + apply String.eqb_neq in Hp.
      split; [by apply negb_true_iff, String.eqb_neq|]. split.
      * intros s. split; [intros; by simplify_eq|]. intros [? ?]. by simplify_eq.
      * split; [discriminate|]. intros [?|?]; by simplify_eq.
  - split; [done|]. split.
    + intros s. split; [discriminate|]. intros [? ?]. discriminate.
    + split; auto.
Qed.
